(** * RentWheels server: a model of src/index.js and its specification

    The server is an Express application over three MongoDB collections
    (carCollection, bookings, users).  Every route handler of index.js is
    rendered below as a function from the store (and the request's parts) to
    the new store and the handler's outcome; the verification middleware is
    a function of the Authorization header; the token library, which holds
    the secret, is a parameter.

    Scope of the store model.
    - A document is an identifier and a finite map from field names to JSON
      scalars (null, booleans, integers, strings).  Nested documents and
      arrays, and with them the operator sub-documents and the array
      matching of the query language, are not represented.
    - Identifiers are assigned on insertion, as in the data model of the
      specification.  An inserted body is taken to have no [_id] member of
      its own; a statement that rests on the identifier a document gets, or
      on an insert going through, says so in a hypothesis.
    - An update patch that has an [_id] member is refused by the store for
      the document it matches; a patch whose member names are paths or
      operators (a dot, a leading dollar sign) is outside the model.
    - The store is reachable and runs every operation it is sent.
    - Strings are byte strings and letter case is the ASCII one. *)

From Stdlib Require Import ZArith NArith Ascii String List Bool.
From stdpp Require Import base option list strings gmap fin_maps sorting.

Local Open Scope string_scope.
Local Open Scope list_scope.

(** ** JSON scalars and documents *)

Inductive value :=
| VNull
| VBool (b : bool)
| VNum (z : Z)
| VStr (s : string).

#[global] Instance value_eq_dec : EqDecision value.
Proof. solve_decision. Defined.

(** A request body, a patch, a decoded token payload are the members of a JS
    object, here a [gmap string value]; a member that is absent reads as
    [undefined], here [None].  A stored document has, besides, the ObjectId
    the store gave it, a 12-byte number. *)
Record document := Doc { _id : N; body : gmap string value }.

#[global] Instance document_eq_dec : EqDecision document.
Proof. solve_decision. Defined.

Definition field (k : string) (d : document) : option value := body d !! k.

(** ** The document store *)

(** Equality condition [{k: q}] of a query filter, where [q] is a JS value
    that may be [undefined].  The driver serialises [undefined] as null, and
    a null condition matches a field that is null or absent. *)
Definition match_eq (q : option value) (f : option value) : bool :=
  match q with
  | None | Some VNull =>
      match f with
      | None | Some VNull => true
      | Some _ => false
      end
  | Some v => bool_decide (f = Some v)
  end.

(** [collection.findOne(filter)]: the first document that satisfies it. *)
Definition findOne (p : document → bool) (c : list document) : option document :=
  List.find p c.

(** [collection.find(filter).toArray()]. *)
Definition find (p : document → bool) (c : list document) : list document :=
  List.filter p c.

(** [collection.insertOne(doc)] for a document without an [_id] member of
    its own: the driver draws a new ObjectId for the document and appends it;
    the result carries the new identifier.  (A document that brings its own
    [_id] is stored under it, or refused if it is in use: the theorems below
    whose statement rests on the identifier or on the success of an insert
    assume that the body has no [_id] member.) *)
Definition insertOne (next : N) (b : gmap string value) (c : list document)
  : list document * N :=
  (c ++ [Doc next b], next).

(** [{ $set: patch }] on one document, for a patch of plain member names
    without [_id]: the patch's fields replace or extend the document's. *)
Definition set_fields (patch : gmap string value) (d : document) : document :=
  Doc (_id d) (patch ∪ body d).

(** [collection.updateOne(filter, { $set: patch })]: the first matching
    document is updated.  The result is the collection with matchedCount and
    modifiedCount. *)
Fixpoint updateOne (p : document → bool) (patch : gmap string value)
    (c : list document) : list document * (nat * nat) :=
  match c with
  | [] => ([], (0, 0))
  | d :: c' =>
      if p d then
        let d' := set_fields patch d in
        (d' :: c', (1, if bool_decide (d' = d) then 0 else 1))
      else
        let '(c'', r) := updateOne p patch c' in (d :: c'', r)
  end.

(** A member name that [$set] takes as the name of a member: not empty, no
    dot (a path), no leading dollar sign (an operator). *)
Definition plain_name (k : string) : bool :=
  match k with
  | EmptyString => false
  | String c _ =>
      negb (Ascii.eqb c "$") && negb (bool_decide ("."%char ∈ list_ascii_of_string k))
  end.

(** What [updateOne(filter, { $set: patch })] answers for a patch that comes
    from a request body. *)
Inductive update_reply :=
| Updated (r : list document * (nat * nat))
| WriteError
| NotModelled.

(** [collection.updateOne(filter, { $set: patch })] for a patch from a
    request body.  When no document matches, nothing happens.  When one
    matches: a patch with an [_id] member is refused, since the identifier of
    a document cannot change and no JSON value is the ObjectId it has; a
    patch of plain member names is merged by [updateOne]; any other patch
    names paths or operators, which documents of scalars cannot render. *)
Definition update_set (p : document → bool) (patch : gmap string value)
    (c : list document) : update_reply :=
  match findOne p c with
  | None => Updated (c, (0, 0)%nat)
  | Some _ =>
      if bool_decide (is_Some (patch !! "_id")) then WriteError
      else if bool_decide (map_Forall (λ k _, plain_name k = true) patch)
      then Updated (updateOne p patch c)
      else NotModelled
  end.

(** [collection.deleteOne(filter)]: the first matching document is removed.
    The result is the collection with deletedCount. *)
Fixpoint deleteOne (p : document → bool) (c : list document)
    : list document * nat :=
  match c with
  | [] => ([], 0)
  | d :: c' =>
      if p d then (c', 1)
      else let '(c'', n) := deleteOne p c' in (d :: c'', n)
  end.

(** ** ObjectId construction *)

Definition hex_digit (c : ascii) : option N :=
  let n := N_of_ascii c in
  if (48 <=? n)%N && (n <=? 57)%N then Some (n - 48)%N
  else if (65 <=? n)%N && (n <=? 70)%N then Some (n - 55)%N
  else if (97 <=? n)%N && (n <=? 102)%N then Some (n - 87)%N
  else None.

Fixpoint from_hex (acc : N) (s : string) : option N :=
  match s with
  | EmptyString => Some acc
  | String c s' =>
      match hex_digit c with
      | Some d => from_hex (16 * acc + d)%N s'
      | None => None
      end
  end.

(** What [new ObjectId(x)] does for a JSON scalar [x] (or [undefined]): a
    string of 24 hexadecimal digits names an identifier; with nothing (or
    null) the constructor generates a new identifier, equal to none that is
    stored; anything else throws.  A number throws as with the current
    driver; an older driver generated an identifier from it, and nothing
    below rests on either behaviour. *)
Inductive ObjectId_result :=
| OidOf (n : N)
| OidGenerated
| OidThrows.

#[global] Instance ObjectId_result_eq_dec : EqDecision ObjectId_result.
Proof. solve_decision. Defined.

Definition ObjectId (x : option value) : ObjectId_result :=
  match x with
  | None | Some VNull => OidGenerated
  | Some (VStr s) =>
      if Nat.eqb (String.length s) 24 then
        match from_hex 0 s with
        | Some n => OidOf n
        | None => OidThrows
        end
      else OidThrows
  | Some (VBool _) | Some (VNum _) => OidThrows
  end.

(** The filter [{ _id: o }] for a constructed identifier. *)
Definition has_id (o : ObjectId_result) (d : document) : bool :=
  match o with
  | OidOf n => bool_decide (_id d = n)
  | _ => false
  end.

(** ** Strings: splitting, letter case, regular expressions *)

(** [s.split(sep)] for a one-character separator: never empty, and two
    adjacent separators enclose an empty string. *)
Fixpoint split (sep : ascii) (s : string) : list string :=
  match s with
  | EmptyString => [EmptyString]
  | String c s' =>
      if Ascii.eqb c sep then EmptyString :: split sep s'
      else match split sep s' with
           | h :: t => String c h :: t
           | [] => [String c EmptyString]
           end
  end.

Definition lower (c : ascii) : ascii :=
  let n := N_of_ascii c in
  if (65 <=? n)%N && (n <=? 90)%N then ascii_of_N (n + 32) else c.


(** The part of the regular-expression language that is modelled: a pattern
    is a sequence of ordinary characters, each matching itself, and dots,
    each matching any character but a line feed.  A pattern that holds any
    other character with a special meaning, or a NUL, is outside the model. *)
Inductive atom :=
| Lit (c : ascii)
| AnyChar.

Definition special : list ascii :=
  list_ascii_of_string "\^$[]|()?*+{}".

Fixpoint compile (pattern : string) : option (list atom) :=
  match pattern with
  | EmptyString => Some []
  | String c p' =>
      if bool_decide (c ∈ special) || Ascii.eqb c zero then None
      else
        match compile p' with
        | Some r => Some ((if Ascii.eqb c "." then AnyChar else Lit c) :: r)
        | None => None
        end
  end.

Definition atom_matches (a : atom) (c : ascii) : bool :=
  match a with
  | Lit x => Ascii.eqb (lower x) (lower c)
  | AnyChar => negb (Ascii.eqb c "010")
  end.

(** The atoms match a prefix of [s], letter case ignored. *)
Fixpoint matches_here (r : list atom) (s : string) : bool :=
  match r, s with
  | [], _ => true
  | _ :: _, EmptyString => false
  | a :: r', String c s' => atom_matches a c && matches_here r' s'
  end.

(** The atoms match somewhere in [s] (the expression is not anchored). *)
Fixpoint matches_within (r : list atom) (s : string) : bool :=
  matches_here r s ||
  match s with
  | EmptyString => false
  | String _ s' => matches_within r s'
  end.

(** The condition [{ k: { $regex: pattern, $options: 'i' } }], for a compiled
    pattern: the field is a string in which the pattern matches. *)
Definition match_regex (r : list atom) (f : option value) : bool :=
  match f with
  | Some (VStr s) => matches_within r s
  | _ => false
  end.

(** ** Requests and responses *)

(** The body of a response. *)
Inductive reply :=
| Message (message : string)
| Token (token : string)
| Documents (docs : list document)
| InsertOneResult (insertedId : N)
| UpdateResult (matchedCount modifiedCount : nat)
| DeleteResult (deletedCount : nat)
| Text (text : string).

(** How a handler ends: it sends a response, or its promise is rejected by an
    exception and the handler sends nothing. *)
Inductive outcome :=
| Sent (status : Z) (r : reply)
| Unhandled.

(** The three collections and the state of the driver's ObjectId generator. *)
Record store := Store {
  carsCollection : list document;
  bookingsCollection : list document;
  usersCollection : list document;
  nextId : N
}.

Definition with_cars (c : list document) (s : store) : store :=
  Store c (bookingsCollection s) (usersCollection s) (nextId s).

(** [a !== b] for a member of the decoded token and a query parameter. *)
Definition differs (a : option value) (b : option string) : bool :=
  match a, b with
  | None, None => false
  | Some (VStr x), Some y => negb (String.eqb x y)
  | _, _ => true
  end.

(** A query parameter as a filter value. *)
Definition of_param (p : option string) : option value := VStr <$> p.

(** What the verification middleware decides. *)
Inductive guarded :=
| Rejected (status : Z) (message : string)
| Next (decoded : gmap string value).

(** ** The server *)

Section Server.

(** The token library with the server's secret, at the time of the request:
    [sign] is [jwt.sign(payload, secret, { expiresIn: '7d' })], which returns
    a token or throws; [verify] is the check of signature and expiry behind
    [jwt.verify], which yields the decoded payload or an error. *)
Variable sign : gmap string value → option string.
Variable verify : string → option (gmap string value).

(** [jwt.verify(token, secret, callback)]: a token that is missing or empty
    is an error before any check. *)
Definition jwt_verify (token : option string) : option (gmap string value) :=
  match token with
  | None => None
  | Some EmptyString => None
  | Some t => verify t
  end.

(** Lines 28-38.  [authHeader] is [req.headers.authorization]. *)
Definition verifyJWT (authHeader : option string) : guarded :=
  match authHeader with
  | None => Rejected 401 "Unauthorized access"
  | Some EmptyString => Rejected 401 "Unauthorized access"
  | Some h =>
      let token := split " " h !! 1%nat in
      match jwt_verify token with
      | None => Rejected 403 "Forbidden access"
      | Some decoded => Next decoded
      end
  end.

(** A route registered as [app.METHOD(path, verifyJWT, handler)]. *)
Definition guard (authHeader : option string) (s : store)
    (handler : gmap string value → store * outcome) : store * outcome :=
  match verifyJWT authHeader with
  | Rejected status m => (s, Sent status (Message m))
  | Next decoded => handler decoded
  end.

(** A guarded route whose handler is modelled in part. *)
Definition guard_partial (authHeader : option string) (s : store)
    (handler : gmap string value → option (store * outcome))
    : option (store * outcome) :=
  match verifyJWT authHeader with
  | Rejected status m => Some (s, Sent status (Message m))
  | Next decoded => handler decoded
  end.

(** POST /jwt, lines 56-60. *)
Definition post_jwt (s : store) (user : gmap string value) : store * outcome :=
  match sign user with
  | Some token => (s, Sent 200 (Token token))
  | None => (s, Unhandled)
  end.

(** POST /users, lines 67-73. *)
Definition post_users (s : store) (user : gmap string value) : store * outcome :=
  let existingUser :=
    findOne (λ d, match_eq (user !! "email") (field "email" d)) (usersCollection s) in
  match existingUser with
  | Some _ => (s, Sent 200 (Message "User already exists"))
  | None =>
      let '(users, result) := insertOne (nextId s) user (usersCollection s) in
      (Store (carsCollection s) (bookingsCollection s) users (N.succ (nextId s)),
       Sent 200 (InsertOneResult result))
  end.

(** GET /users, lines 76-79. *)
Definition get_users (s : store) : store * outcome :=
  (s, Sent 200 (Documents (find (λ _, true) (usersCollection s)))).

(** POST /cars handler, lines 86-90. *)
Definition post_cars (s : store) (car : gmap string value) : store * outcome :=
  let '(cars, result) := insertOne (nextId s) car (carsCollection s) in
  (Store cars (bookingsCollection s) (usersCollection s) (N.succ (nextId s)),
   Sent 200 (InsertOneResult result)).

(** [.sort({ _id: -1 })]: descending identifiers. *)
Fixpoint insert_desc (d : document) (l : list document) : list document :=
  match l with
  | [] => [d]
  | e :: l' => if (_id e <=? _id d)%N then d :: l else e :: insert_desc d l'
  end.

Definition sort_desc (l : list document) : list document :=
  foldr insert_desc [] l.

(** GET /cars, lines 93-96. *)
Definition get_cars (s : store) : store * outcome :=
  (s, Sent 200 (Documents (take 6 (sort_desc (find (λ _, true) (carsCollection s)))))).

(** GET /my-listings handler, lines 106-111. *)
Definition get_my_listings (s : store) (email : option string)
    (decoded : gmap string value) : store * outcome :=
  if differs (decoded !! "email") email then
    (s, Sent 403 (Message "Forbidden access"))
  else
    (s, Sent 200 (Documents
      (find (λ d, match_eq (of_param email) (field "providerEmail" d))
            (carsCollection s)))).

(** PUT /cars/:id handler, lines 114-122.  [None] when the patch is outside
    the store model. *)
Definition put_cars (s : store) (id : string) (updatedCar : gmap string value)
    : option (store * outcome) :=
  match ObjectId (Some (VStr id)) with
  | OidThrows => Some (s, Unhandled)
  | o =>
      match update_set (has_id o) updatedCar (carsCollection s) with
      | Updated (cars, (matched, modified)) =>
          Some (with_cars cars s, Sent 200 (UpdateResult matched modified))
      | WriteError => Some (s, Unhandled)
      | NotModelled => None
      end
  end.

(** DELETE /cars/:id handler, lines 125-129. *)
Definition delete_cars (s : store) (id : string) : store * outcome :=
  match ObjectId (Some (VStr id)) with
  | OidThrows => (s, Unhandled)
  | o =>
      let '(cars, deleted) := deleteOne (has_id o) (carsCollection s) in
      (with_cars cars s, Sent 200 (DeleteResult deleted))
  end.

(** The filter of line 139: same [carId], status ['Booked']. *)
Definition booked_for (carId : option value) (d : document) : bool :=
  match_eq carId (field "carId" d) &&
  match_eq (Some (VStr "Booked")) (field "status" d).

(** POST /bookings handler, lines 135-152. *)
Definition post_bookings (s : store) (booking : gmap string value)
    : store * outcome :=
  let existingBooking :=
    findOne (booked_for (booking !! "carId")) (bookingsCollection s) in
  match existingBooking with
  | Some _ => (s, Sent 400 (Message "This car is already booked"))
  | None =>
      let '(bookings, bookingResult) :=
        insertOne (nextId s) booking (bookingsCollection s) in
      let s1 :=
        Store (carsCollection s) bookings (usersCollection s) (N.succ (nextId s)) in
      match ObjectId (booking !! "carId") with
      | OidThrows => (s1, Unhandled)
      | o =>
          let '(cars, _) :=
            updateOne (has_id o) {[ "status" := VStr "Booked" ]} (carsCollection s1) in
          (with_cars cars s1, Sent 200 (InsertOneResult bookingResult))
      end
  end.

(** GET /bookings handler, lines 155-160. *)
Definition get_bookings (s : store) (email : option string)
    (decoded : gmap string value) : store * outcome :=
  if differs (decoded !! "email") email then
    (s, Sent 403 (Message "Forbidden access"))
  else
    (s, Sent 200 (Documents
      (find (λ d, match_eq (of_param email) (field "userEmail" d))
            (bookingsCollection s)))).

(** GET /search, lines 167-173.  [None] when the pattern is outside the
    modelled part of the regular-expression language. *)
Definition get_search (s : store) (q : option string) : option (store * outcome) :=
  let query := match q with
               | None | Some EmptyString => EmptyString
               | Some x => x
               end in
  r ← compile query;
  Some (s, Sent 200 (Documents
    (find (λ d, match_regex r (field "name" d)) (carsCollection s)))).

(** GET /, lines 178-180. *)
Definition get_root (s : store) : store * outcome :=
  (s, Sent 200 (Text "🚗 RentWheels Server is Running Perfectly...")).

(** The requests the server routes. *)
Inductive request :=
| PostJwt (user : gmap string value)
| PostUsers (user : gmap string value)
| GetUsers
| PostCars (authorization : option string) (car : gmap string value)
| GetCars
| GetMyListings (authorization : option string) (email : option string)
| PutCars (authorization : option string) (id : string) (updatedCar : gmap string value)
| DeleteCars (authorization : option string) (id : string)
| PostBookings (authorization : option string) (booking : gmap string value)
| GetBookings (authorization : option string) (email : option string)
| GetSearch (q : option string)
| GetRoot.

(** The routing table of lines 56-180. *)
Definition serve (s : store) (r : request) : option (store * outcome) :=
  match r with
  | PostJwt user => Some (post_jwt s user)
  | PostUsers user => Some (post_users s user)
  | GetUsers => Some (get_users s)
  | PostCars a car => Some (guard a s (λ _, post_cars s car))
  | GetCars => Some (get_cars s)
  | GetMyListings a email => Some (guard a s (get_my_listings s email))
  | PutCars a id updatedCar => guard_partial a s (λ _, put_cars s id updatedCar)
  | DeleteCars a id => Some (guard a s (λ _, delete_cars s id))
  | PostBookings a booking => Some (guard a s (λ _, post_bookings s booking))
  | GetBookings a email => Some (guard a s (get_bookings s email))
  | GetSearch q => get_search s q
  | GetRoot => Some (get_root s)
  end.

End Server.

(** ** Concurrent bookings

    Node runs a handler without interruption between two [await]s, and the
    store runs each single-document operation on its own.  A booking request
    that has passed the guard is therefore a task of three store operations,
    and any operations of other requests may run in between. *)

Inductive task :=
| Checking (booking : gmap string value)
| Inserting (booking : gmap string value)
| Updating (booking : gmap string value) (bookingResult : N)
| Finished (o : outcome).

(** The next store operation of a booking task (lines 139, 146, 147). *)
Definition step (s : store) (t : task) : store * task :=
  match t with
  | Checking booking =>
      match findOne (booked_for (booking !! "carId")) (bookingsCollection s) with
      | Some _ => (s, Finished (Sent 400 (Message "This car is already booked")))
      | None => (s, Inserting booking)
      end
  | Inserting booking =>
      let '(bookings, bookingResult) :=
        insertOne (nextId s) booking (bookingsCollection s) in
      (Store (carsCollection s) bookings (usersCollection s) (N.succ (nextId s)),
       Updating booking bookingResult)
  | Updating booking bookingResult =>
      match ObjectId (booking !! "carId") with
      | OidThrows => (s, Finished Unhandled)
      | o =>
          let '(cars, _) :=
            updateOne (has_id o) {[ "status" := VStr "Booked" ]} (carsCollection s) in
          (with_cars cars s, Finished (Sent 200 (InsertOneResult bookingResult)))
      end
  | Finished _ => (s, t)
  end.

(** A schedule names, operation by operation, the task that moves next. *)
Fixpoint run (schedule : list nat) (s : store) (ts : list task) : store * list task :=
  match schedule with
  | [] => (s, ts)
  | i :: schedule' =>
      match ts !! i with
      | Some t => let '(s', t') := step s t in run schedule' s' (<[i := t']> ts)
      | None => run schedule' s ts
      end
  end.


(** The bookings of a listing that are active. *)
Definition active_bookings (carId : option value) (s : store) : list document :=
  find (booked_for carId) (bookingsCollection s).

(** ** Notions of the specification *)

(** "The substring after the first space" of a header, if it has a space. *)
Fixpoint after_first_space (h : string) : option string :=
  match h with
  | EmptyString => None
  | String c h' => if Ascii.eqb c " " then Some h' else after_first_space h'
  end.

(** The part of a string before its first space (all of it if it has none). *)
Fixpoint up_to_space (h : string) : string :=
  match h with
  | EmptyString => EmptyString
  | String c h' => if Ascii.eqb c " " then EmptyString else String c (up_to_space h')
  end.






(** ** Sample data *)

(** A token service for the examples: the token of an identity is its email
    after a fixed prefix, and only such texts without a space verify. *)
Definition sample_sign (payload : gmap string value) : option string :=
  match payload !! "email" with
  | Some (VStr e) => Some (String.append "jwt." e)
  | _ => None
  end.

Definition sample_verify (t : string) : option (gmap string value) :=
  if String.prefix "jwt." t && bool_decide (" "%char ∉ list_ascii_of_string t)
  then Some {[ "email" := VStr (substring 4 (String.length t - 4) t) ]}
  else None.

Definition alice : string := "alice@rent.io".
Definition bob : string := "bob@rent.io".
Definition alice_auth : option string := Some "Bearer jwt.alice@rent.io".
Definition bob_auth : option string := Some "Bearer jwt.bob@rent.io".

Definition corolla_id : string := "00000000000000000000000a".

Definition corolla : document :=
  Doc 10 {[ "name" := VStr "Toyota Corolla";
            "providerEmail" := VStr bob;
            "status" := VStr "Available" ]}.

Definition civic : document :=
  Doc 11 {[ "name" := VStr "Honda Civic";
            "providerEmail" := VStr alice;
            "status" := VStr "Booked" ]}.


Definition sample_store : store := Store [corolla; civic] [] [] 20.

(** A booking of the Corolla for [email] with the given status. *)
Definition booking_of (email status : string) : gmap string value :=
  {[ "carId" := VStr corolla_id; "userEmail" := VStr email; "status" := VStr status ]}.





Definition booked (d : document) : document :=
  Doc (_id d) (<["status" := VStr "Booked"]> (body d)).

(** ** Further notions *)

(** The Authorization header of a request to a private route; [None] for a
    public route, which reads no header. *)
Definition authorization_of (r : request) : option (option string) :=
  match r with
  | PostCars a _ | GetMyListings a _ | PutCars a _ _ | DeleteCars a _
  | PostBookings a _ | GetBookings a _ => Some a
  | _ => None
  end.

(** The identifiers of a collection. *)
Definition ids (c : list document) : list N := _id <$> c.




(** *** Concurrent registrations

    POST /users awaits twice (lines 69 and 71): a registration is a task of
    two store operations. *)
Inductive registration :=
| Looking (user : gmap string value)
| Adding (user : gmap string value)
| Answered (o : outcome).

(** The next store operation of a registration (lines 69, 71). *)
Definition register_step (s : store) (t : registration) : store * registration :=
  match t with
  | Looking user =>
      match findOne (λ d, match_eq (user !! "email") (field "email" d))
                    (usersCollection s) with
      | Some _ => (s, Answered (Sent 200 (Message "User already exists")))
      | None => (s, Adding user)
      end
  | Adding user =>
      let '(users, result) := insertOne (nextId s) user (usersCollection s) in
      (Store (carsCollection s) (bookingsCollection s) users (N.succ (nextId s)),
       Answered (Sent 200 (InsertOneResult result)))
  | Answered _ => (s, t)
  end.

Fixpoint register_run (schedule : list nat) (s : store) (ts : list registration)
    : store * list registration :=
  match schedule with
  | [] => (s, ts)
  | i :: schedule' =>
      match ts !! i with
      | Some t =>
          let '(s', t') := register_step s t in
          register_run schedule' s' (<[i := t']> ts)
      | None => register_run schedule' s ts
      end
  end.

(** *** More sample data *)









(** * Properties *)

(** ** The store operations *)

Lemma findOne_None (p : document → bool) (c : list document) :
  findOne p c = None ↔ ∀ d, d ∈ c → p d = false.
Proof.
  unfold findOne. induction c as [|e c IH]; simpl.
  - split; [intros _ d Hd; inversion Hd | done].
  - destruct (p e) eqn:He.
    + split; [done | intros H]. specialize (H e (list_elem_of_here _ _)). congruence.
    + rewrite IH. split.
      * intros H d Hd. apply elem_of_cons in Hd as [-> | Hd]; auto.
      * intros H d Hd. apply H. by apply list_elem_of_further.
Qed.


Lemma updateOne_none (p : document → bool) (patch : gmap string value)
    (c : list document) :
  (∀ d, d ∈ c → p d = false) → updateOne p patch c = (c, (0, 0)%nat).
Proof.
  induction c as [|e c IH]; intros H; simpl; [done |].
  rewrite (H e (list_elem_of_here _ _)).
  rewrite IH; [done |]. intros d Hd. apply H. by apply list_elem_of_further.
Qed.


Lemma deleteOne_none (p : document → bool) (c : list document) :
  (∀ d, d ∈ c → p d = false) → deleteOne p c = (c, 0%nat).
Proof.
  induction c as [|e c IH]; intros H; simpl; [done |].
  rewrite (H e (list_elem_of_here _ _)).
  rewrite IH; [done |]. intros d Hd. apply H. by apply list_elem_of_further.
Qed.





(** ** The booking engine, one request at a time *)

Lemma booked_for_spec (carId : option value) (d : document) :
  booked_for carId d = true ↔
  match_eq carId (field "carId" d) = true ∧ field "status" d = Some (VStr "Booked").
Proof.
  unfold booked_for. rewrite andb_true_iff. simpl.
  by rewrite bool_decide_eq_true.
Qed.

(** What a booking that passes the conflict check does when the identifier
    of its listing is well formed. *)
Lemma post_bookings_no_conflict (s : store) (booking : gmap string value) :
  findOne (booked_for (booking !! "carId")) (bookingsCollection s) = None →
  ObjectId (booking !! "carId") ≠ OidThrows →
  post_bookings s booking
  = (Store (updateOne (has_id (ObjectId (booking !! "carId")))
              {[ "status" := VStr "Booked" ]} (carsCollection s)).1
           (bookingsCollection s ++ [Doc (nextId s) booking])
           (usersCollection s) (N.succ (nextId s)),
     Sent 200 (InsertOneResult (nextId s))).
Proof.
  intros Hfind Hoid. unfold post_bookings. rewrite Hfind. simpl.
  destruct (ObjectId (booking !! "carId")) eqn:E; [| | done];
    unfold with_cars; simpl;
    destruct (updateOne _ _ (carsCollection s)) as [cars r]; done.
Qed.




(** ** Concurrent bookings *)

(** A task that runs alone is the handler. *)
Lemma run_alone (s : store) (booking : gmap string value) :
  run [0; 0; 0]%nat s [Checking booking]
  = ((post_bookings s booking).1, [Finished (post_bookings s booking).2]).
Proof.
  unfold post_bookings. simpl.
  destruct (findOne _ _); simpl; [done |].
  destruct (ObjectId (booking !! "carId")); simpl; try done;
    destruct (updateOne _ _ (carsCollection s)) as [cars r]; done.
Qed.


(** C1, the code at a failing input: two bookings of the Corolla, both with
    status 'Booked', whose operations alternate.  Both are answered 200 with
    an insertion result, and the listing ends with two active bookings. *)
Theorem double_booking_race :
  run [0; 1; 0; 1; 0; 1]%nat sample_store
      [Checking (booking_of alice "Booked"); Checking (booking_of bob "Booked")]
  = (Store [booked corolla; civic]
           [Doc 20 (booking_of alice "Booked"); Doc 21 (booking_of bob "Booked")]
           [] 22,
     [Finished (Sent 200 (InsertOneResult 20));
      Finished (Sent 200 (InsertOneResult 21))])
  ∧ active_bookings (Some (VStr corolla_id))
      (run [0; 1; 0; 1; 0; 1]%nat sample_store
         [Checking (booking_of alice "Booked"); Checking (booking_of bob "Booked")]).1
    = [Doc 20 (booking_of alice "Booked"); Doc 21 (booking_of bob "Booked")].
Proof. split; vm_compute; reflexivity. Qed.

(** The same two requests one after the other: the second is refused. *)
Example double_booking_in_turn :
  run [0; 0; 0; 1; 1; 1]%nat sample_store
      [Checking (booking_of alice "Booked"); Checking (booking_of bob "Booked")]
  = (Store [booked corolla; civic] [Doc 20 (booking_of alice "Booked")] [] 21,
     [Finished (Sent 200 (InsertOneResult 20));
      Finished (Sent 400 (Message "This car is already booked"))]).
Proof. vm_compute. reflexivity. Qed.

(** ** The status of a listing *)





Lemma updateOne_generated (patch : gmap string value) (c : list document) :
  updateOne (has_id OidGenerated) patch c = (c, (0, 0)%nat).
Proof. by apply updateOne_none. Qed.

Lemma deleteOne_generated (c : list document) :
  deleteOne (has_id OidGenerated) c = (c, 0%nat).
Proof. by apply deleteOne_none. Qed.

(** ** Updates from a request body *)

Lemma update_set_cases (p : document → bool) (patch : gmap string value)
    (c : list document) :
  (findOne p c = None ∧ update_set p patch c = Updated (c, (0, 0)%nat))
  ∨ (∃ d, findOne p c = Some d
          ∧ ((is_Some (patch !! "_id") ∧ update_set p patch c = WriteError)
             ∨ (patch !! "_id" = None
                ∧ map_Forall (λ k _, plain_name k = true) patch
                ∧ update_set p patch c = Updated (updateOne p patch c))
             ∨ (patch !! "_id" = None ∧ update_set p patch c = NotModelled))).
Proof.
  unfold update_set. destruct (findOne p c) as [d|]; [right | by left].
  exists d. split; [done |].
  destruct (decide (is_Some (patch !! "_id"))) as [Hid | Hid].
  - left. by rewrite bool_decide_eq_true_2.
  - right. rewrite (bool_decide_eq_false_2 _ Hid).
    assert (patch !! "_id" = None) by (by destruct (patch !! "_id"); [destruct Hid |]).
    destruct (decide (map_Forall (λ k _, plain_name k = true) patch)) as [Hp | Hp].
    + left. by rewrite bool_decide_eq_true_2.
    + right. by rewrite bool_decide_eq_false_2.
Qed.

(** For the patch of the booking engine the store's update is [updateOne]. *)
Lemma update_set_status (p : document → bool) (c : list document) :
  update_set p {[ "status" := VStr "Booked" ]} c
  = Updated (updateOne p {[ "status" := VStr "Booked" ]} c).
Proof.
  destruct (update_set_cases p {[ "status" := VStr "Booked" ]} c)
    as [[Hf ->] | (d & Hf & [[Hid _] | [(_ & _ & ->) | [_ Hn]]])].
  - f_equal. symmetry. apply updateOne_none. by apply findOne_None.
  - rewrite lookup_singleton_ne in Hid by done. by destruct Hid.
  - done.
  - unfold update_set in Hn. rewrite Hf in Hn.
    rewrite bool_decide_eq_false_2 in Hn
      by (rewrite lookup_singleton_ne by done; by intros [? ?]).
    rewrite bool_decide_eq_true_2 in Hn; [done |].
    apply map_Forall_singleton. reflexivity.
Qed.

(** An update that is answered: it changed nothing (it threw on the
    identifier or on an [_id] member, or no listing has the identifier), or
    it merged a patch without [_id] into the first listing of that
    identifier. *)
Lemma put_cars_effect (s s' : store) (id : string) (patch : gmap string value)
    (o : outcome) :
  put_cars s id patch = Some (s', o) →
  (s' = s
   ∧ (o = Unhandled ∨ o = Sent 200 (UpdateResult 0 0))
   ∧ ∀ n, ObjectId (Some (VStr id)) = OidOf n → patch !! "_id" = None →
          findOne (has_id (OidOf n)) (carsCollection s) = None)
  ∨ (∃ n d, ObjectId (Some (VStr id)) = OidOf n
       ∧ patch !! "_id" = None
       ∧ map_Forall (λ k _, plain_name k = true) patch
       ∧ findOne (has_id (OidOf n)) (carsCollection s) = Some d
       ∧ s' = with_cars (updateOne (has_id (OidOf n)) patch (carsCollection s)).1 s
       ∧ o = Sent 200 (UpdateResult
               (updateOne (has_id (OidOf n)) patch (carsCollection s)).2.1
               (updateOne (has_id (OidOf n)) patch (carsCollection s)).2.2)).
Proof.
  unfold put_cars. intros H.
  destruct (ObjectId (Some (VStr id))) as [k| |] eqn:Ek.
  - destruct (update_set_cases (has_id (OidOf k)) patch (carsCollection s))
      as [[Hf E] | (d & Hf & [[Hid E] | [(Hid & Hp & E) | [_ E]]])];
      rewrite E in H.
    + injection H as <- <-. left. split; [by destruct s |]. split; [by right |].
      by intros n [= <-] _.
    + injection H as <- <-. left. split; [done |]. split; [by left |].
      intros n _ Hn. rewrite Hn in Hid. by destruct Hid.
    + destruct (updateOne _ _ _) as [cars [matched modified]] eqn:Eu.
      injection H as <- <-. right. exists k, d. rewrite Eu. done.
    + done.
  - simpl in Ek. destruct (Nat.eqb _ _); [destruct (from_hex 0 id) |]; done.
  - injection H as <- <-. left. split; [done |]. split; [by left |]. by intros n [=].
Qed.





Section Routes.

Variable sign : gmap string value → option string.
Variable verify : string → option (gmap string value).

(** The guard either answers 401 or 403 and leaves the store as it is, or
    hands the decoded payload to the handler. *)
Lemma guard_cases (authHeader : option string) (s : store)
    (handler : gmap string value → store * outcome) :
  (∃ status m, guard verify authHeader s handler = (s, Sent status (Message m))
               ∧ (status = 401%Z ∨ status = 403%Z))
  ∨ (∃ decoded, verifyJWT verify authHeader = Next decoded
                ∧ guard verify authHeader s handler = handler decoded).
Proof.
  unfold guard, verifyJWT.
  destruct authHeader as [[|c h]|]; simpl; [left; eauto | | left; eauto].
  destruct (jwt_verify verify _); [right | left]; eauto.
Qed.

Lemma guard_partial_cases (authHeader : option string) (s : store)
    (handler : gmap string value → option (store * outcome)) :
  (∃ status m, guard_partial verify authHeader s handler
               = Some (s, Sent status (Message m))
               ∧ verifyJWT verify authHeader = Rejected status m)
  ∨ (∃ decoded, verifyJWT verify authHeader = Next decoded
                ∧ guard_partial verify authHeader s handler = handler decoded).
Proof.
  unfold guard_partial. destruct (verifyJWT verify authHeader); eauto.
Qed.




End Routes.



(** ** Ownership scoping *)

Lemma differs_false (decoded : gmap string value) (a b : string) :
  decoded !! "email" = Some (VStr a) →
  differs (decoded !! "email") (Some b) = negb (String.eqb a b).
Proof. by intros ->. Qed.


(** With a valid token, a private query for the token's own email is
    answered with the records that carry that email. *)
Lemma serve_own_records
    (sign : gmap string value → option string)
    (verify : string → option (gmap string value))
    (s : store) (authHeader : option string)
    (decoded : gmap string value) (A : string) :
  verifyJWT verify authHeader = Next decoded →
  decoded !! "email" = Some (VStr A) →
  serve sign verify s (GetMyListings authHeader (Some A))
  = Some (s, Sent 200 (Documents
      (List.filter (λ d, bool_decide (field "providerEmail" d = Some (VStr A)))
                   (carsCollection s))))
  ∧ serve sign verify s (GetBookings authHeader (Some A))
    = Some (s, Sent 200 (Documents
        (List.filter (λ d, bool_decide (field "userEmail" d = Some (VStr A)))
                     (bookingsCollection s)))).
Proof.
  intros Hv He. simpl. unfold guard. rewrite Hv.
  unfold get_my_listings, get_bookings.
  rewrite !(differs_false decoded A) by done.
  by rewrite String.eqb_refl.
Qed.

(** With a valid token, a private query for another email is refused. *)
Lemma serve_other_records
    (sign : gmap string value → option string)
    (verify : string → option (gmap string value))
    (s : store) (authHeader : option string)
    (decoded : gmap string value) (A B : string) :
  verifyJWT verify authHeader = Next decoded →
  decoded !! "email" = Some (VStr A) →
  A ≠ B →
  serve sign verify s (GetMyListings authHeader (Some B))
  = Some (s, Sent 403 (Message "Forbidden access"))
  ∧ serve sign verify s (GetBookings authHeader (Some B))
    = Some (s, Sent 403 (Message "Forbidden access")).
Proof.
  intros Hv He Hne. simpl. unfold guard. rewrite Hv.
  unfold get_my_listings, get_bookings.
  rewrite !(differs_false decoded A) by done.
  apply String.eqb_neq in Hne. by rewrite Hne.
Qed.

(** C4: with a valid token whose email is [A], the private listings and
    bookings of another email [B] are answered 403 "Forbidden access" with
    no record (and no change to the store); those of [A] itself are exactly
    the listings whose providerEmail is [A] and the bookings whose userEmail
    is [A]. *)
Theorem ownership_isolation
    (sign : gmap string value → option string)
    (verify : string → option (gmap string value))
    (s : store) (authHeader : option string)
    (decoded : gmap string value) (A B : string) :
  verifyJWT verify authHeader = Next decoded →
  decoded !! "email" = Some (VStr A) →
  (A ≠ B →
     serve sign verify s (GetMyListings authHeader (Some B))
     = Some (s, Sent 403 (Message "Forbidden access"))
     ∧ serve sign verify s (GetBookings authHeader (Some B))
       = Some (s, Sent 403 (Message "Forbidden access")))
  ∧ serve sign verify s (GetMyListings authHeader (Some A))
    = Some (s, Sent 200 (Documents
        (List.filter (λ d, bool_decide (field "providerEmail" d = Some (VStr A)))
                     (carsCollection s))))
  ∧ serve sign verify s (GetBookings authHeader (Some A))
    = Some (s, Sent 200 (Documents
        (List.filter (λ d, bool_decide (field "userEmail" d = Some (VStr A)))
                     (bookingsCollection s)))).
Proof.
  intros Hv He. split.
  - intros Hne. by apply (serve_other_records sign verify s authHeader decoded A B).
  - by apply (serve_own_records sign verify s authHeader decoded A).
Qed.

Lemma ownership_isolation_witness :
  (serve sample_sign sample_verify sample_store (GetMyListings alice_auth (Some bob))
   = Some (sample_store, Sent 403 (Message "Forbidden access"))
   ∧ serve sample_sign sample_verify sample_store (GetBookings alice_auth (Some bob))
     = Some (sample_store, Sent 403 (Message "Forbidden access")))
  ∧ serve sample_sign sample_verify sample_store (GetMyListings alice_auth (Some alice))
    = Some (sample_store, Sent 200 (Documents [civic])).
Proof.
  destruct (ownership_isolation sample_sign sample_verify sample_store alice_auth
              {[ "email" := VStr alice ]} alice bob) as (H1 & H2 & _).
  - vm_compute. reflexivity.
  - vm_compute. reflexivity.
  - split.
    + apply H1. vm_compute. discriminate.
    + rewrite H2. vm_compute. reflexivity.
Defined.

(** ** The access guard *)

Lemma split_head (h : string) : split " " h !! 0%nat = Some (up_to_space h).
Proof.
  induction h as [|c h IH]; simpl; [done |].
  destruct (Ascii.eqb c " "); [done |].
  destruct (split " " h) as [|x t]; simpl in *; [done |].
  by injection IH as ->.
Qed.

(** The token the guard reads is the part of the header between its first
    and its second space. *)
Lemma split_second (h : string) :
  split " " h !! 1%nat = up_to_space <$> after_first_space h.
Proof.
  induction h as [|c h IH]; simpl; [done |].
  destruct (Ascii.eqb c " ").
  - simpl. apply split_head.
  - pose proof (split_head h) as Hh.
    destruct (split " " h) as [|x t]; simpl in *; [done | exact IH].
Qed.

Lemma up_to_space_append (t rest : string) :
  " "%char ∉ list_ascii_of_string t →
  up_to_space (String.append t (String " " rest)) = t.
Proof.
  induction t as [|c t IH]; simpl; intros H; [done |].
  destruct (Ascii.eqb_spec c " ") as [-> | Hc].
  - destruct H. apply list_elem_of_here.
  - f_equal. apply IH. intros Hin. apply H. by apply list_elem_of_further.
Qed.

(** X6: whatever follows a second space in the header is ignored. *)
Lemma verifyJWT_ignores_rest (verify : string → option (gmap string value))
    (t rest : string) (decoded : gmap string value) :
  " "%char ∉ list_ascii_of_string t →
  t ≠ EmptyString →
  verify t = Some decoded →
  verifyJWT verify (Some (String.append "Bearer " (String.append t (String " " rest))))
  = Next decoded.
Proof.
  intros Hsp Hne Hv. unfold verifyJWT.
  change (String.append "Bearer " ?x) with (String "B" (String.append "earer " x)).
  cbv iota beta. rewrite split_second.
  change (after_first_space (String "B" (String.append "earer " ?x))) with (Some x).
  cbn [fmap option_fmap option_map].
  rewrite up_to_space_append by done. simpl.
  destruct t; [done | by rewrite Hv].
Qed.

Lemma verifyJWT_ignores_rest_witness :
  verifyJWT sample_verify
    (Some (String.append "Bearer " (String.append "jwt.alice@rent.io" (String " " "x"))))
  = Next {[ "email" := VStr alice ]}.
Proof.
  apply (verifyJWT_ignores_rest sample_verify "jwt.alice@rent.io" "x").
  - apply (bool_decide_unpack _). vm_compute. exact I.
  - discriminate.
  - vm_compute. reflexivity.
Defined.

(** C5, as amended: a guarded request whose Authorization header is absent
    or empty is answered 401 "Unauthorized access".  Otherwise the token is
    the part of the header between its first and its second space (none if
    the header has no space); if its verification fails (a missing or empty
    token fails it) the request is answered 403 "Forbidden access"; if it
    succeeds the decoded payload is handed to the handler, whose result is
    the result of the route.  A rejection leaves the store as it was. *)
Theorem guard_decides (verify : string → option (gmap string value))
    (authHeader : option string) (s : store)
    (handler : gmap string value → store * outcome) :
  (authHeader = None ∨ authHeader = Some EmptyString →
   guard verify authHeader s handler = (s, Sent 401 (Message "Unauthorized access")))
  ∧ (∀ h, authHeader = Some h → h ≠ EmptyString →
       (jwt_verify verify (up_to_space <$> after_first_space h) = None →
        guard verify authHeader s handler = (s, Sent 403 (Message "Forbidden access")))
       ∧ (∀ decoded,
            jwt_verify verify (up_to_space <$> after_first_space h) = Some decoded →
            verifyJWT verify authHeader = Next decoded
            ∧ guard verify authHeader s handler = handler decoded)).
Proof.
  split.
  - by intros [-> | ->].
  - intros h -> Hne. unfold guard, verifyJWT.
    destruct h as [|c h]; [done |].
    rewrite split_second. split.
    + by intros ->.
    + by intros decoded ->.
Qed.

Lemma guard_decides_witness :
  guard sample_verify None sample_store (λ _, get_root sample_store)
  = (sample_store, Sent 401 (Message "Unauthorized access"))
  ∧ guard sample_verify (Some "Bearer forged") sample_store
      (get_my_listings sample_store (Some alice))
    = (sample_store, Sent 403 (Message "Forbidden access"))
  ∧ guard sample_verify alice_auth sample_store
      (get_my_listings sample_store (Some alice))
    = get_my_listings sample_store (Some alice) {[ "email" := VStr alice ]}.
Proof.
  split; [| split].
  - apply (proj1 (guard_decides sample_verify None sample_store _)). by left.
  - destruct (proj2 (guard_decides sample_verify (Some "Bearer forged")
                       sample_store (get_my_listings sample_store (Some alice)))
                "Bearer forged" eq_refl) as [H _]; [discriminate |].
    apply H. vm_compute. reflexivity.
  - destruct (proj2 (guard_decides sample_verify alice_auth sample_store
                       (get_my_listings sample_store (Some alice)))
                "Bearer jwt.alice@rent.io" eq_refl) as [_ H]; [discriminate |].
    apply H. vm_compute. reflexivity.
Defined.

(** C5, the claim as stated fails.  The text after the first space of this
    header does not verify, yet the request passes the guard, on the part of
    that text before its next space; and a header that is present but empty
    is answered 401, not 403. *)
Lemma guard_token_is_second_field :
  after_first_space "Bearer jwt.alice@rent.io x" = Some "jwt.alice@rent.io x"
  ∧ jwt_verify sample_verify (Some "jwt.alice@rent.io x") = None
  ∧ verifyJWT sample_verify (Some "Bearer jwt.alice@rent.io x")
    = Next {[ "email" := VStr alice ]}
  ∧ verifyJWT sample_verify (Some EmptyString) = Rejected 401 "Unauthorized access".
Proof. repeat split; vm_compute; reflexivity. Qed.

(** ** Search *)








Lemma filter_all (f : document → bool) (l : list document) :
  (∀ d, d ∈ l → f d = true) → List.filter f l = l.
Proof.
  induction l as [|d l IH]; intros H; simpl; [done |].
  rewrite (H d (list_elem_of_here _ _)). f_equal. apply IH.
  intros e He. apply H. by apply list_elem_of_further.
Qed.




(** ** Registration *)

Lemma filter_none (f : document → bool) (l : list document) :
  (∀ d, d ∈ l → f d = false) → List.filter f l = [].
Proof.
  induction l as [|d l IH]; intros H; simpl; [done |].
  rewrite (H d (list_elem_of_here _ _)). apply IH.
  intros e He. apply H. by apply list_elem_of_further.
Qed.



(** ** Update and delete *)


Lemma update_set_plain (p : document → bool) (patch : gmap string value)
    (c : list document) :
  patch !! "_id" = None →
  map_Forall (λ k _, plain_name k = true) patch →
  update_set p patch c = Updated (updateOne p patch c).
Proof.
  intros Hid Hp. unfold update_set. destruct (findOne p c) eqn:Hf.
  - rewrite bool_decide_eq_false_2 by (rewrite Hid; by intros [? ?]).
    by rewrite bool_decide_eq_true_2.
  - f_equal. symmetry. apply updateOne_none. by apply findOne_None.
Qed.




(** ** What the booking engine does not check *)

(** A booking answered 200 found no conflict, had a [carId] that is or
    yields an identifier, and was appended as it is. *)
Lemma post_bookings_success (s s1 : store) (booking : gmap string value) (r : reply) :
  post_bookings s booking = (s1, Sent 200 r) →
  findOne (booked_for (booking !! "carId")) (bookingsCollection s) = None
  ∧ ObjectId (booking !! "carId") ≠ OidThrows
  ∧ r = InsertOneResult (nextId s)
  ∧ bookingsCollection s1 = bookingsCollection s ++ [Doc (nextId s) booking]
  ∧ usersCollection s1 = usersCollection s
  ∧ nextId s1 = N.succ (nextId s).
Proof.
  intros H.
  destruct (findOne (booked_for (booking !! "carId")) (bookingsCollection s)) eqn:E.
  { unfold post_bookings in H. rewrite E in H. discriminate. }
  destruct (decide (ObjectId (booking !! "carId") = OidThrows)) as [Et | Hne].
  { unfold post_bookings in H. rewrite E in H. simpl in H. rewrite Et in H.
    discriminate. }
  rewrite (post_bookings_no_conflict s booking E Hne) in H.
  injection H as <- <-. done.
Qed.




(** C10: a booking is handled the same whatever valid token it comes with.
    When the token's email is [A] and the payload's userEmail is another
    email [B], a booking answered 200 is stored with the payload as it is;
    it is then the last of the bookings returned to [B] and is not among
    those returned to [A], which are the ones [A] had before. *)
Theorem booking_for_someone_else
    (sign : gmap string value → option string)
    (verify : string → option (gmap string value))
    (s s1 : store) (authHeader : option string) (decoded : gmap string value)
    (A B : string) (booking : gmap string value) (r : reply) :
  verifyJWT verify authHeader = Next decoded →
  decoded !! "email" = Some (VStr A) →
  booking !! "userEmail" = Some (VStr B) →
  A ≠ B →
  serve sign verify s (PostBookings authHeader booking) = Some (s1, Sent 200 r) →
  (∀ other decoded', verifyJWT verify other = Next decoded' →
     serve sign verify s (PostBookings other booking) = Some (s1, Sent 200 r))
  ∧ bookingsCollection s1 = bookingsCollection s ++ [Doc (nextId s) booking]
  ∧ (∀ authB decodedB,
       verifyJWT verify authB = Next decodedB →
       decodedB !! "email" = Some (VStr B) →
       serve sign verify s1 (GetBookings authB (Some B))
       = Some (s1, Sent 200 (Documents
           (List.filter (λ d, bool_decide (field "userEmail" d = Some (VStr B)))
                        (bookingsCollection s)
            ++ [Doc (nextId s) booking]))))
  ∧ serve sign verify s1 (GetBookings authHeader (Some A))
    = Some (s1, Sent 200 (Documents
        (List.filter (λ d, bool_decide (field "userEmail" d = Some (VStr A)))
                     (bookingsCollection s))))
  ∧ Doc (nextId s) booking
    ∉ List.filter (λ d, bool_decide (field "userEmail" d = Some (VStr A)))
                  (bookingsCollection s).
Proof.
  intros Hv He Hb Hne Hserve.
  simpl in Hserve. unfold guard in Hserve. rewrite Hv in Hserve.
  injection Hserve as Hpost.
  pose proof (post_bookings_success _ _ _ _ Hpost) as (_ & _ & _ & Hbs & _ & _).
  split; [| split; [| split; [| split]]].
  - intros other decoded' Hv'. simpl. unfold guard. rewrite Hv'. by rewrite Hpost.
  - exact Hbs.
  - intros authB decodedB HvB HeB.
    destruct (serve_own_records sign verify s1 authB decodedB B HvB HeB) as [_ ->].
    rewrite Hbs, List.filter_app. simpl.
    by rewrite (bool_decide_eq_true_2 (field "userEmail" (Doc (nextId s) booking) = _)).
  - destruct (serve_own_records sign verify s1 authHeader decoded A Hv He) as [_ ->].
    rewrite Hbs, List.filter_app. simpl.
    rewrite (bool_decide_eq_false_2 (field "userEmail" (Doc (nextId s) booking) = _)).
    + by rewrite app_nil_r.
    + unfold field. simpl. rewrite Hb. intros [= ->]. done.
  - intros Hin. apply list_elem_of_In, List.filter_In in Hin as [_ Hin].
    apply bool_decide_eq_true in Hin. unfold field in Hin. simpl in Hin.
    rewrite Hb in Hin. injection Hin as ->. done.
Qed.

Lemma booking_for_someone_else_witness :
  (∀ other decoded', verifyJWT sample_verify other = Next decoded' →
     serve sample_sign sample_verify sample_store
       (PostBookings other (booking_of bob "Booked"))
     = Some (Store [booked corolla; civic] [Doc 20 (booking_of bob "Booked")] [] 21,
             Sent 200 (InsertOneResult 20)))
  ∧ serve sample_sign sample_verify
      (Store [booked corolla; civic] [Doc 20 (booking_of bob "Booked")] [] 21)
      (GetBookings bob_auth (Some bob))
    = Some (Store [booked corolla; civic] [Doc 20 (booking_of bob "Booked")] [] 21,
            Sent 200 (Documents [Doc 20 (booking_of bob "Booked")]))
  ∧ serve sample_sign sample_verify
      (Store [booked corolla; civic] [Doc 20 (booking_of bob "Booked")] [] 21)
      (GetBookings alice_auth (Some alice))
    = Some (Store [booked corolla; civic] [Doc 20 (booking_of bob "Booked")] [] 21,
            Sent 200 (Documents [])).
Proof.
  destruct (booking_for_someone_else sample_sign sample_verify sample_store
              (Store [booked corolla; civic] [Doc 20 (booking_of bob "Booked")] [] 21)
              alice_auth {[ "email" := VStr alice ]} alice bob
              (booking_of bob "Booked") (InsertOneResult 20))
    as (H1 & _ & H2 & H3 & _).
  - vm_compute. reflexivity.
  - vm_compute. reflexivity.
  - vm_compute. reflexivity.
  - vm_compute. discriminate.
  - vm_compute. reflexivity.
  - split; [exact H1 |]. split; [| exact H3].
    apply (H2 bob_auth {[ "email" := VStr bob ]}); vm_compute; reflexivity.
Defined.

(** ** One request at a time: at most one active booking per listing *)

Lemma match_eq_common (c x y : option value) :
  match_eq c x = true → match_eq c y = true → match_eq x y = true.
Proof.
  destruct c as [[| | |]|], x as [[| | |]|], y as [[| | |]|]; simpl;
    rewrite ?bool_decide_eq_true; try done; congruence.
Qed.

(** What a request does to the bookings: nothing, or, for a booking that
    found no conflict, the candidate is appended. *)
Lemma serve_bookings
    (sign : gmap string value → option string)
    (verify : string → option (gmap string value))
    (s s' : store) (r : request) (o : outcome) :
  serve sign verify s r = Some (s', o) →
  bookingsCollection s' = bookingsCollection s
  ∨ (∃ a booking,
       r = PostBookings a booking
       ∧ findOne (booked_for (booking !! "carId")) (bookingsCollection s) = None
       ∧ bookingsCollection s' = bookingsCollection s ++ [Doc (nextId s) booking]).
Proof.
  intros H.
  destruct r as [user|user| |a car| |a email|a id patch|a id|a booking|a email|q| ];
    simpl in H.
  - unfold post_jwt in H. destruct (sign user); injection H as <- <-; auto.
  - unfold post_users in H. destruct (findOne _ _); injection H as <- <-; auto.
  - injection H as <- <-; auto.
  - destruct (guard_cases verify a s (λ _, post_cars s car)) as [(c & m & E & _) | (d & _ & E)];
      rewrite E in H; injection H as <- <-; auto.
  - injection H as <- <-; auto.
  - destruct (guard_cases verify a s (get_my_listings s email))
      as [(c & m & E & _) | (d & _ & E)];
      rewrite E in H; [injection H as <- <-; auto |].
    unfold get_my_listings in H. destruct (differs _ _); injection H as <- <-; auto.
  - destruct (guard_partial_cases verify a s (λ _, put_cars s id patch))
      as [(c & m & E & _) | (d & _ & E)];
      rewrite E in H; [injection H as <- <-; auto |].
    apply put_cars_effect in H as [[-> _] | (k & e & _ & _ & _ & _ & -> & _)]; auto.
  - destruct (guard_cases verify a s (λ _, delete_cars s id))
      as [(c & m & E & _) | (d & _ & E)];
      rewrite E in H; [injection H as <- <-; auto |].
    unfold delete_cars in H.
    destruct (ObjectId (Some (VStr id)));
      try destruct (deleteOne _ _) as [cars deleted];
      injection H as <- <-; auto.
  - destruct (guard_cases verify a s (λ _, post_bookings s booking))
      as [(c & m & E & _) | (d & _ & E)];
      rewrite E in H; [injection H as <- <-; auto |].
    unfold post_bookings in H.
    destruct (findOne _ _) eqn:Ef; [injection H as <- <-; auto |].
    right. exists a, booking. split; [done |]. split; [done |].
    simpl in H.
    destruct (ObjectId (booking !! "carId"));
      try destruct (updateOne _ _ _) as [cars res];
      injection H as <- <-; done.
  - destruct (guard_cases verify a s (get_bookings s email))
      as [(c & m & E & _) | (d & _ & E)];
      rewrite E in H; [injection H as <- <-; auto |].
    unfold get_bookings in H. destruct (differs _ _); injection H as <- <-; auto.
  - unfold get_search in H. destruct (compile _); simpl in H; [| done].
    injection H as <- <-; auto.
  - injection H as <- <-; auto.
Qed.

(** X1: served one after the other, requests keep the invariant of the
    booking engine: no listing ever has two active bookings. *)
Theorem one_active_booking_in_turn
    (sign : gmap string value → option string)
    (verify : string → option (gmap string value))
    (s s' : store) (r : request) (o : outcome) :
  serve sign verify s r = Some (s', o) →
  (∀ carId, (List.length (active_bookings carId s) <= 1)%nat) →
  ∀ carId, (List.length (active_bookings carId s') <= 1)%nat.
Proof.
  intros H Hinv carId. unfold active_bookings, find in *.
  destruct (serve_bookings sign verify s s' r o H) as [-> | (a & b & _ & Hf & ->)];
    [apply Hinv |].
  rewrite List.filter_app, length_app. simpl.
  destruct (booked_for carId (Doc (nextId s) b)) eqn:Eb; simpl;
    [| specialize (Hinv carId); lia].
  rewrite filter_none; [simpl; lia |].
  intros d Hd. destruct (booked_for carId d) eqn:Ed; [| done].
  rewrite findOne_None in Hf. specialize (Hf d Hd).
  apply booked_for_spec in Eb as [Eb1 Eb2].
  apply booked_for_spec in Ed as [Ed1 Ed2].
  assert (booked_for (b !! "carId") d = true); [| congruence].
  apply booked_for_spec. split; [| done].
  by apply (match_eq_common carId).
Qed.

Lemma one_active_booking_in_turn_witness :
  (List.length (active_bookings (Some (VStr corolla_id))
            (Store [booked corolla; civic] [Doc 20 (booking_of alice "Booked")] [] 21))
   <= 1)%nat.
Proof.
  apply (one_active_booking_in_turn sample_sign sample_verify sample_store
           (Store [booked corolla; civic] [Doc 20 (booking_of alice "Booked")] [] 21)
           (PostBookings alice_auth (booking_of alice "Booked"))
           (Sent 200 (InsertOneResult 20))).
  - vm_compute. reflexivity.
  - intros carId. simpl. lia.
Defined.






(** ** Recent listings *)

Lemma insert_desc_perm (d : document) (l : list document) :
  insert_desc d l ≡ₚ d :: l.
Proof.
  induction l as [|e l IH]; simpl; [done |].
  destruct (_id e <=? _id d)%N; [done |].
  rewrite IH. apply Permutation_swap.
Qed.

Lemma sort_desc_perm (l : list document) : sort_desc l ≡ₚ l.
Proof.
  unfold sort_desc. induction l as [|d l IH]; simpl; [done |].
  by rewrite insert_desc_perm, IH.
Qed.

Lemma insert_desc_sorted (d : document) (l : list document) :
  StronglySorted (λ a b, (_id b <= _id a)%N) l →
  StronglySorted (λ a b, (_id b <= _id a)%N) (insert_desc d l).
Proof.
  induction l as [|e l IH]; simpl; intros Hs.
  - apply StronglySorted_cons. split; [constructor | constructor].
  - apply StronglySorted_cons in Hs as [He Hl].
    destruct (N.leb_spec (_id e) (_id d)) as [Hle | Hgt].
    + apply StronglySorted_cons. split.
      * constructor; [done |].
        eapply Forall_impl; [exact He |]. simpl. intros x Hx. lia.
      * apply StronglySorted_cons. by split.
    + apply StronglySorted_cons. split; [| by apply IH].
      rewrite insert_desc_perm. constructor; [lia | done].
Qed.

Lemma sort_desc_sorted (l : list document) :
  StronglySorted (λ a b, (_id b <= _id a)%N) (sort_desc l).
Proof.
  unfold sort_desc. induction l as [|d l IH]; simpl; [constructor |].
  by apply insert_desc_sorted.
Qed.

(** X5: the landing-page feed has at most six listings, by descending
    identifier, and none that is left out has a greater identifier than one
    returned. *)
Theorem get_cars_recent (s : store) :
  ∃ l rest,
    get_cars s = (s, Sent 200 (Documents l))
    ∧ l ++ rest ≡ₚ carsCollection s
    ∧ List.length l = Nat.min 6 (List.length (carsCollection s))
    ∧ StronglySorted (λ a b, (_id b <= _id a)%N) l
    ∧ ∀ d e, d ∈ l → e ∈ rest → (_id e <= _id d)%N.
Proof.
  exists (take 6 (sort_desc (carsCollection s))), (drop 6 (sort_desc (carsCollection s))).
  assert (Hfind : find (λ _, true) (carsCollection s) = carsCollection s).
  { unfold find. by apply filter_all. }
  pose proof (sort_desc_sorted (carsCollection s)) as Hs.
  rewrite <- (take_drop 6 (sort_desc (carsCollection s))) in Hs.
  split; [| split; [| split; [| split]]].
  - unfold get_cars. by rewrite Hfind.
  - rewrite take_drop. apply sort_desc_perm.
  - rewrite length_take. by rewrite (Permutation_length (sort_desc_perm _)).
  - by apply StronglySorted_app_1_l in Hs.
  - intros d e Hd He. by apply (StronglySorted_app_1_elem_of _ _ _ d e Hs).
Qed.

(** Ten listings created in a row, then the feed: the six created last, the
    last one first. *)
Example ten_listings :
  (get_cars
     (foldl (λ s n, (post_cars s {[ "name" := VNum n ]}).1)
            (Store [] [] [] 1) [1; 2; 3; 4; 5; 6; 7; 8; 9; 10]%Z)).2
  = Sent 200 (Documents
      [Doc 10 {[ "name" := VNum 10 ]}; Doc 9 {[ "name" := VNum 9 ]};
       Doc 8 {[ "name" := VNum 8 ]}; Doc 7 {[ "name" := VNum 7 ]};
       Doc 6 {[ "name" := VNum 6 ]}; Doc 5 {[ "name" := VNum 5 ]}]).
Proof. vm_compute. reflexivity. Qed.

(** ** Identifiers in use *)

Lemma ids_updateOne (p : document → bool) (patch : gmap string value)
    (c : list document) :
  ids (updateOne p patch c).1 = ids c.
Proof.
  unfold ids. induction c as [|d c IH]; simpl; [done |].
  destruct (p d); [done |].
  destruct (updateOne p patch c) as [c' r]. simpl in *. by f_equal.
Qed.

Lemma ids_deleteOne (p : document → bool) (c : list document) :
  ids (deleteOne p c).1 `sublist_of` ids c.
Proof.
  unfold ids. induction c as [|d c IH]; simpl; [done |].
  destruct (p d); simpl.
  - by apply sublist_cons.
  - destruct (deleteOne p c) as [c' r]. simpl in *. by apply sublist_skip.
Qed.

Lemma ids_insertOne (n : N) (b : gmap string value) (c : list document) :
  ids (insertOne n b c).1 = ids c ++ [n].
Proof. unfold ids, insertOne. simpl. by rewrite fmap_app. Qed.

(** ** What a request can do to the store *)

(** Every way a request changes the store: not at all; a registration adds
    a user; with a valid token, a creation adds a listing, an update or a
    deletion replaces the listings by ones with the same identifiers or
    fewer, and a booking adds a booking and may update a listing. *)
Lemma serve_effect
    (sign : gmap string value → option string)
    (verify : string → option (gmap string value))
    (s s' : store) (r : request) (o : outcome) :
  serve sign verify s r = Some (s', o) →
  s' = s
  ∨ (∃ user, r = PostUsers user
       ∧ s' = Store (carsCollection s) (bookingsCollection s)
                    (usersCollection s ++ [Doc (nextId s) user]) (N.succ (nextId s)))
  ∨ (∃ a decoded, authorization_of r = Some a ∧ verifyJWT verify a = Next decoded
       ∧ ((∃ car, s' = Store (carsCollection s ++ [Doc (nextId s) car])
                            (bookingsCollection s) (usersCollection s)
                            (N.succ (nextId s)))
          ∨ (∃ cars, s' = with_cars cars s
                     ∧ ids cars `sublist_of` ids (carsCollection s))
          ∨ (∃ cars booking,
               s' = Store cars (bookingsCollection s ++ [Doc (nextId s) booking])
                          (usersCollection s) (N.succ (nextId s))
               ∧ ids cars = ids (carsCollection s)))).
Proof.
  intros H.
  destruct r as [user|user| |a car| |a email|a id patch|a id|a booking|a email|q| ];
    simpl in H.
  - unfold post_jwt in H. destruct (sign user); injection H as <- <-; auto.
  - unfold post_users in H. destruct (findOne _ _); injection H as <- <-; [auto |].
    right. left. by exists user.
  - injection H as <- <-; auto.
  - destruct (guard_cases verify a s (λ _, post_cars s car))
      as [(c & m & E & _) | (d & Hv & E)];
      rewrite E in H; injection H as <- <-; [auto |].
    right. right. exists a, d. split; [done |]. split; [done |]. left. by exists car.
  - injection H as <- <-; auto.
  - destruct (guard_cases verify a s (get_my_listings s email))
      as [(c & m & E & _) | (d & _ & E)];
      rewrite E in H; [injection H as <- <-; auto |].
    unfold get_my_listings in H. destruct (differs _ _); injection H as <- <-; auto.
  - destruct (guard_partial_cases verify a s (λ _, put_cars s id patch))
      as [(c & m & E & _) | (d & Hv & E)];
      rewrite E in H; [injection H as <- <-; auto |].
    apply put_cars_effect in H as [[-> _] | (k & e & _ & _ & _ & _ & -> & _)]; [auto |].
    right. right. exists a, d. split; [done |]. split; [done |].
    right. left. eexists. split; [done |]. by rewrite ids_updateOne.
  - destruct (guard_cases verify a s (λ _, delete_cars s id))
      as [(c & m & E & _) | (d & Hv & E)];
      rewrite E in H; [injection H as <- <-; auto |].
    unfold delete_cars in H.
    destruct (ObjectId (Some (VStr id))) as [k| |].
    + pose proof (ids_deleteOne (has_id (OidOf k)) (carsCollection s)) as Hids.
      destruct (deleteOne _ _) as [cars deleted].
      injection H as <- <-.
      right. right. exists a, d. split; [done |]. split; [done |].
      right. left. by exists cars.
    + rewrite deleteOne_generated in H. injection H as <- <-. left. by destruct s.
    + injection H as <- <-; auto.
  - destruct (guard_cases verify a s (λ _, post_bookings s booking))
      as [(c & m & E & _) | (d & Hv & E)];
      rewrite E in H; [injection H as <- <-; auto |].
    unfold post_bookings in H.
    destruct (findOne _ _); [injection H as <- <-; auto |].
    simpl in H.
    right. right. exists a, d. split; [done |]. split; [done |]. right. right.
    destruct (ObjectId (booking !! "carId")) as [k| |].
    + pose proof (ids_updateOne (has_id (OidOf k)) {[ "status" := VStr "Booked" ]}
                    (carsCollection s)) as Hids.
      destruct (updateOne _ _ _) as [cars res].
      injection H as <- <-. by exists cars, booking.
    + rewrite updateOne_generated in H. injection H as <- <-.
      by exists (carsCollection s), booking.
    + injection H as <- <-. by exists (carsCollection s), booking.
  - destruct (guard_cases verify a s (get_bookings s email))
      as [(c & m & E & _) | (d & _ & E)];
      rewrite E in H; [injection H as <- <-; auto |].
    unfold get_bookings in H. destruct (differs _ _); injection H as <- <-; auto.
  - unfold get_search in H. destruct (compile _); simpl in H; [| done].
    injection H as <- <-; auto.
  - injection H as <- <-; auto.
Qed.

(** X8: without a valid token no request changes a listing or a booking.
    A request to a public route, or one whose token the guard rejects,
    leaves listings and bookings as they were; only a registration changes
    the store. *)
Theorem anonymous_requests_frame
    (sign : gmap string value → option string)
    (verify : string → option (gmap string value))
    (s s' : store) (r : request) (o : outcome) :
  serve sign verify s r = Some (s', o) →
  (∀ a, authorization_of r = Some a → ∃ status m, verifyJWT verify a = Rejected status m) →
  carsCollection s' = carsCollection s
  ∧ bookingsCollection s' = bookingsCollection s
  ∧ (s' = s ∨ ∃ user, r = PostUsers user).
Proof.
  intros H Hanon.
  destruct (serve_effect sign verify s s' r o H)
    as [-> | [(user & -> & ->) | (a & d & Ha & Hv & _)]].
  - auto.
  - simpl. eauto.
  - destruct (Hanon a Ha) as (st & m & Hr). congruence.
Qed.

Lemma anonymous_requests_frame_witness :
  carsCollection sample_store = carsCollection sample_store
  ∧ bookingsCollection sample_store = bookingsCollection sample_store
  ∧ (sample_store = sample_store
     ∨ ∃ user, DeleteCars (Some "Bearer forged") corolla_id = PostUsers user).
Proof.
  apply (anonymous_requests_frame sample_sign sample_verify sample_store sample_store
           (DeleteCars (Some "Bearer forged") corolla_id)
           (Sent 403 (Message "Forbidden access"))).
  - vm_compute. reflexivity.
  - intros a [= <-]. exists 403%Z, "Forbidden access". vm_compute. reflexivity.
Defined.

(** ** Creating a listing *)



(** ** Update and delete at the edges *)

Lemma ObjectId_wrong_length (id : string) :
  String.length id ≠ 24%nat → ObjectId (Some (VStr id)) = OidThrows.
Proof.
  intros H. simpl. destruct (Nat.eqb_spec (String.length id) 24); done.
Qed.

Lemma ObjectId_not_hex (id : string) :
  from_hex 0 id = None → ObjectId (Some (VStr id)) = OidThrows.
Proof. intros H. simpl. rewrite H. by destruct (Nat.eqb _ _). Qed.

(** X10: with a valid token, an update or a deletion whose [:id] is not a
    string of 24 hexadecimal digits throws before it reaches the store: the
    handler sends nothing and the store is as it was. *)
Theorem malformed_id_unhandled
    (sign : gmap string value → option string)
    (verify : string → option (gmap string value))
    (s : store) (a : option string) (decoded : gmap string value)
    (id : string) (patch : gmap string value) :
  verifyJWT verify a = Next decoded →
  String.length id ≠ 24%nat ∨ from_hex 0 id = None →
  serve sign verify s (PutCars a id patch) = Some (s, Unhandled)
  ∧ serve sign verify s (DeleteCars a id) = Some (s, Unhandled).
Proof.
  intros Hv Hbad.
  assert (Ho : ObjectId (Some (VStr id)) = OidThrows).
  { destruct Hbad; [by apply ObjectId_wrong_length | by apply ObjectId_not_hex]. }
  simpl. unfold guard, guard_partial. rewrite Hv. unfold put_cars, delete_cars.
  by rewrite Ho.
Qed.

Lemma malformed_id_unhandled_witness :
  serve sample_sign sample_verify sample_store
    (PutCars alice_auth "10" {[ "price" := VNum 1 ]})
  = Some (sample_store, Unhandled)
  ∧ serve sample_sign sample_verify sample_store (DeleteCars alice_auth "10")
    = Some (sample_store, Unhandled).
Proof.
  apply (malformed_id_unhandled sample_sign sample_verify sample_store alice_auth
           {[ "email" := VStr alice ]}).
  - vm_compute. reflexivity.
  - left. vm_compute. discriminate.
Defined.




Lemma set_fields_twice (patch : gmap string value) (d : document) :
  set_fields patch (set_fields patch d) = set_fields patch d.
Proof.
  unfold set_fields. simpl. f_equal.
  by rewrite (assoc_L (∪)), (idemp_L (∪)).
Qed.

Lemma updateOne_again (o : ObjectId_result) (patch : gmap string value)
    (c c' : list document) (k m : nat) :
  updateOne (has_id o) patch c = (c', (k, m)) →
  updateOne (has_id o) patch c' = (c', (k, 0%nat)).
Proof.
  revert c' k m. induction c as [|d c IH]; intros c' k m; simpl.
  - by intros [= <- <- <-].
  - destruct (has_id o d) eqn:Ed.
    + intros [= <- <- _]. simpl.
      assert (has_id o (set_fields patch d) = true) as -> by by destruct o.
      by rewrite set_fields_twice, bool_decide_eq_true_2.
    + destruct (updateOne (has_id o) patch c) as [c1 [k1 m1]] eqn:Eu.
      intros [= <- <- <-]. simpl. rewrite Ed.
      by rewrite (IH c1 k1 m1).
Qed.

(** X12: an update is idempotent.  Sent again after it was answered 200, the
    same update is answered with the same matchedCount and modifiedCount 0,
    and changes nothing. *)
Theorem update_twice
    (sign : gmap string value → option string)
    (verify : string → option (gmap string value))
    (s s1 : store) (a : option string) (decoded : gmap string value)
    (id : string) (patch : gmap string value) (matched modified : nat) :
  verifyJWT verify a = Next decoded →
  serve sign verify s (PutCars a id patch)
  = Some (s1, Sent 200 (UpdateResult matched modified)) →
  serve sign verify s1 (PutCars a id patch)
  = Some (s1, Sent 200 (UpdateResult matched 0)).
Proof.
  intros Hv H. simpl in *. unfold guard_partial in *. rewrite Hv in *.
  pose proof (put_cars_effect _ _ _ _ _ H)
    as [(-> & [[=] | [= -> ->]] & _) | (n & e & Hn & Hid & Hp & _ & -> & Ho)].
  - exact H.
  - injection Ho as -> _. unfold put_cars. rewrite Hn. simpl.
    rewrite update_set_plain by done.
    destruct (updateOne _ _ (carsCollection s)) as [cars [k m]] eqn:Eu. simpl.
    by rewrite (updateOne_again _ _ _ _ _ _ Eu).
Qed.

Lemma update_twice_witness :
  serve sample_sign sample_verify
    (Store [Doc 10 ({[ "price" := VNum 1 ]} ∪ body corolla); civic] [] [] 20)
    (PutCars alice_auth corolla_id {[ "price" := VNum 1 ]})
  = Some (Store [Doc 10 ({[ "price" := VNum 1 ]} ∪ body corolla); civic] [] [] 20,
          Sent 200 (UpdateResult 1 0)).
Proof.
  apply (update_twice sample_sign sample_verify sample_store _ alice_auth
           {[ "email" := VStr alice ]} corolla_id {[ "price" := VNum 1 ]} 1 1).
  - vm_compute. reflexivity.
  - vm_compute. reflexivity.
Defined.



(** ** Registration at the edges *)






(** A registration run alone is the handler. *)
Lemma register_run_alone (s : store) (user : gmap string value) :
  register_run [0; 0]%nat s [Looking user]
  = ((post_users s user).1, [Answered (post_users s user).2]).
Proof.
  unfold post_users. simpl. destruct (findOne _ _); done.
Qed.





(** ** Finding a created listing *)



(** ** The header the guard reads *)

Lemma verifyJWT_nonempty (verify : string → option (gmap string value)) (h : string) :
  h ≠ EmptyString →
  verifyJWT verify (Some h)
  = match jwt_verify verify (up_to_space <$> after_first_space h) with
    | None => Rejected 403 "Forbidden access"
    | Some decoded => Next decoded
    end.
Proof.
  intros Hne. unfold verifyJWT. destruct h as [|c h]; [done |].
  by rewrite split_second.
Qed.

Lemma after_first_space_append (w rest : string) :
  " "%char ∉ list_ascii_of_string w →
  after_first_space (String.append w (String " " rest)) = Some rest.
Proof.
  induction w as [|c w IH]; simpl; intros H; [done |].
  destruct (Ascii.eqb_spec c " ") as [-> | Hc].
  - destruct H. apply list_elem_of_here.
  - apply IH. intros Hin. apply H. by apply list_elem_of_further.
Qed.

Lemma after_first_space_none (h : string) :
  " "%char ∉ list_ascii_of_string h → after_first_space h = None.
Proof.
  induction h as [|c h IH]; simpl; intros H; [done |].
  destruct (Ascii.eqb_spec c " ") as [-> | Hc].
  - destruct H. apply list_elem_of_here.
  - apply IH. intros Hin. apply H. by apply list_elem_of_further.
Qed.

Lemma up_to_space_all (t : string) :
  " "%char ∉ list_ascii_of_string t → up_to_space t = t.
Proof.
  induction t as [|c t IH]; simpl; intros H; [done |].
  destruct (Ascii.eqb_spec c " ") as [-> | Hc].
  - destruct H. apply list_elem_of_here.
  - f_equal. apply IH. intros Hin. apply H. by apply list_elem_of_further.
Qed.

Lemma append_space_nonempty (w rest : string) :
  String.append w (String " " rest) ≠ EmptyString.
Proof. by destruct w. Qed.

(** X18: the guard does not read the scheme.  Whatever word without a space
    stands before the first space of the header, be it "Bearer", "Basic" or
    nothing, the guard decides as it does for "Bearer". *)
Theorem guard_ignores_scheme (verify : string → option (gmap string value))
    (w rest : string) :
  " "%char ∉ list_ascii_of_string w →
  verifyJWT verify (Some (String.append w (String " " rest)))
  = verifyJWT verify (Some (String.append "Bearer" (String " " rest))).
Proof.
  intros Hw.
  rewrite !verifyJWT_nonempty by apply append_space_nonempty.
  rewrite (after_first_space_append w rest Hw).
  rewrite (after_first_space_append "Bearer" rest); [done |].
  apply (bool_decide_unpack _). vm_compute. exact I.
Qed.

Lemma guard_ignores_scheme_witness :
  verifyJWT sample_verify (Some (String.append "Basic" (String " " "jwt.alice@rent.io")))
  = verifyJWT sample_verify (Some (String.append "Bearer" (String " " "jwt.alice@rent.io"))).
Proof.
  apply guard_ignores_scheme.
  apply (bool_decide_unpack _). vm_compute. exact I.
Defined.

(** X19: a header without a space is never accepted.  A header that is not
    empty and has no space, such as a token sent bare, is answered 403
    whatever the token library would say of it. *)
Theorem bare_token_refused (verify : string → option (gmap string value))
    (h : string) :
  h ≠ EmptyString →
  " "%char ∉ list_ascii_of_string h →
  verifyJWT verify (Some h) = Rejected 403 "Forbidden access".
Proof.
  intros Hne Hsp. rewrite verifyJWT_nonempty by done.
  by rewrite after_first_space_none.
Qed.

Lemma bare_token_refused_witness :
  sample_verify "jwt.alice@rent.io" = Some {[ "email" := VStr alice ]}
  ∧ verifyJWT sample_verify (Some "jwt.alice@rent.io") = Rejected 403 "Forbidden access".
Proof.
  split; [vm_compute; reflexivity |].
  apply bare_token_refused; [discriminate |].
  apply (bool_decide_unpack _). vm_compute. exact I.
Defined.

(** ** Issuing tokens *)

(** X20: a token is issued for whatever the body says, with no credential
    asked.  POST /jwt answers with the token the library signs for the body
    and leaves the store alone; if that token has no space and verifies to a
    payload with the body's email [B], it opens the private listings and
    bookings of [B]. *)
Theorem token_for_any_email
    (sign : gmap string value → option string)
    (verify : string → option (gmap string value))
    (s : store) (user decoded : gmap string value) (t B : string) :
  user !! "email" = Some (VStr B) →
  sign user = Some t →
  t ≠ EmptyString →
  " "%char ∉ list_ascii_of_string t →
  verify t = Some decoded →
  decoded !! "email" = user !! "email" →
  serve sign verify s (PostJwt user) = Some (s, Sent 200 (Token t))
  ∧ serve sign verify s
      (GetMyListings (Some (String.append "Bearer" (String " " t))) (Some B))
    = Some (s, Sent 200 (Documents
        (List.filter (λ d, bool_decide (field "providerEmail" d = Some (VStr B)))
                     (carsCollection s))))
  ∧ serve sign verify s
      (GetBookings (Some (String.append "Bearer" (String " " t))) (Some B))
    = Some (s, Sent 200 (Documents
        (List.filter (λ d, bool_decide (field "userEmail" d = Some (VStr B)))
                     (bookingsCollection s)))).
Proof.
  intros He Hs Hne Hsp Hv Hd.
  assert (Hg : verifyJWT verify (Some (String.append "Bearer" (String " " t)))
               = Next decoded).
  { rewrite verifyJWT_nonempty by apply append_space_nonempty.
    rewrite after_first_space_append.
    - simpl. rewrite up_to_space_all by done. simpl.
      destruct t; [done | by rewrite Hv].
    - apply (bool_decide_unpack _). vm_compute. exact I. }
  split.
  - simpl. unfold post_jwt. by rewrite Hs.
  - apply (serve_own_records sign verify s _ decoded B Hg). by rewrite Hd.
Qed.

Lemma token_for_any_email_witness :
  serve sample_sign sample_verify sample_store (PostJwt {[ "email" := VStr bob ]})
  = Some (sample_store, Sent 200 (Token "jwt.bob@rent.io"))
  ∧ serve sample_sign sample_verify sample_store
      (GetMyListings (Some (String.append "Bearer" (String " " "jwt.bob@rent.io")))
         (Some bob))
    = Some (sample_store, Sent 200 (Documents
        (List.filter (λ d, bool_decide (field "providerEmail" d = Some (VStr bob)))
                     (carsCollection sample_store))))
  ∧ serve sample_sign sample_verify sample_store
      (GetBookings (Some (String.append "Bearer" (String " " "jwt.bob@rent.io")))
         (Some bob))
    = Some (sample_store, Sent 200 (Documents
        (List.filter (λ d, bool_decide (field "userEmail" d = Some (VStr bob)))
                     (bookingsCollection sample_store)))).
Proof.
  apply (token_for_any_email sample_sign sample_verify sample_store
           {[ "email" := VStr bob ]} {[ "email" := VStr bob ]} "jwt.bob@rent.io" bob).
  - vm_compute. reflexivity.
  - vm_compute. reflexivity.
  - discriminate.
  - apply (bool_decide_unpack _). vm_compute. exact I.
  - vm_compute. reflexivity.
  - vm_compute. reflexivity.
Defined.

(** ** The newest listing *)




(** ** The window of the booking race *)





